(** * Drift analysis of ETF holdings: a model of [analyze_data] (src/app.py)

    The development embeds the core computation of the rebalancing tool,
    the function [analyze_data], together with the part of pandas and of
    Python it relies on, and proves properties of the per-account result
    rows.

    Conventions of the model.
    - Numbers (market values, weights, ratios) are exact rationals [Qc];
      the rounding of binary floating point is outside the model.
    - Strings are byte strings; [str.strip] and [str.upper] are modelled on
      ASCII, bytes from 128 on are left as they are.
    - A holdings table carries its list of column names and, per row, the
      cells of the three configured columns: the account id, a string or
      missing (NaN, [None]); the ticker, the text [astype(str)] yields; the
      market value, a number.  Account ids are compared as strings.
    - The formatted cell "ratio (deviation)" of a result row is kept as the
      pair of numbers it prints. *)

From Stdlib Require Import Ascii String QArith Qcanon Qcabs.
From stdpp Require Import base option list sorting gmap strings numbers.

Local Open Scope Qc_scope.
Local Open Scope string_scope.
Local Open Scope list_scope.

(** ** Python values and exceptions *)

Inductive exn : Type :=
  | ZeroDivisionError.

Inductive result (A : Type) : Type :=
  | Ok (a : A)
  | Raise (e : exn).
Arguments Ok {A} a.
Arguments Raise {A} e.

Definition bind {A B} (m : result A) (k : A → result B) : result B :=
  match m with
  | Ok a => k a
  | Raise e => Raise e
  end.

Notation "'let*' x := m 'in' k" := (bind m (λ x, k))
  (at level 10, x pattern, m at level 100, k at level 200).

(** The body of a [for] loop that may raise, run over the items in order. *)
Fixpoint for_each {A S} (body : S → A → result S) (items : list A) (s : S)
  : result S :=
  match items with
  | [] => Ok s
  | x :: items' => let* s' := body s x in for_each body items' s'
  end.

(** [a / b]: raises on a zero divisor.  (Where numpy would give [inf] with
    a warning instead, the rationals have no such value; every statement
    below that depends on it assumes a divisor that is not zero.) *)
Definition py_div (a b : Qc) : result Qc :=
  if decide (b = 0) then Raise ZeroDivisionError else Ok (a / b).

(** [Series.sum()]. *)
Definition series_sum (l : list Qc) : Qc := foldl Qcplus 0 l.

(** [0.02], the threshold of both composite rules, and the default divisor. *)
Definition threshold : Qc := Q2Qc (2 # 100).
Definition default_drift_divisor : Qc := Q2Qc (2 # 1).

(** ** Ticker normalisation: [.str.strip().str.upper()] *)

Definition isspace (c : ascii) : bool :=
  let n := N_of_ascii c in
  ((9 <=? n) && (n <=? 13) || (28 <=? n) && (n <=? 32))%N.

Definition upper_char (c : ascii) : ascii :=
  let n := N_of_ascii c in
  if ((97 <=? n) && (n <=? 122))%N then ascii_of_N (n - 32) else c.

Fixpoint str_upper (s : string) : string :=
  match s with
  | EmptyString => EmptyString
  | String c s' => String (upper_char c) (str_upper s')
  end.

Fixpoint str_lstrip (s : string) : string :=
  match s with
  | EmptyString => EmptyString
  | String c s' => if isspace c then str_lstrip s' else s
  end.

Fixpoint str_rstrip (s : string) : string :=
  match s with
  | EmptyString => EmptyString
  | String c s' =>
      match str_rstrip s' with
      | EmptyString => if isspace c then EmptyString else String c EmptyString
      | t => String c t
      end
  end.

Definition str_strip (s : string) : string := str_rstrip (str_lstrip s).

Definition normalize_ticker (s : string) : string := str_upper (str_strip s).

(** ** Data model *)

Record HoldingRecord : Type := {
  account_id : option string;
  ticker : string;
  market_value : Qc
}.

Record DataFrame : Type := {
  df_columns : list string;
  df_rows : list HoldingRecord
}.

Record Columns : Type := {
  col_account_id : string;
  col_ticker : string;
  col_market_value : string
}.

Record StatusLabels : Type := {
  warning : string;
  normal : string
}.

(** [config.json] once loaded.  [drift_divisor] is the entry of that name in
    [app_settings], [status_labels] the entry of that name, when present. *)
Record Configuration : Type := {
  columns : Columns;
  target_weights : list (string * Qc);
  drift_divisor : option Qc;
  status_labels : option StatusLabels
}.

(** A result row, the dict [row].  Its fixed keys are fields; its per-ticker
    keys are [row_tickers], in the order they were written, with cells
    (actual ratio, deviation).  [row_us] and [row_cn] are the two composite
    columns.  A target ticker named like one of the fixed columns would
    share its key in the dict; the record keeps them apart. *)
Record Row : Type := {
  row_account : string;
  row_tickers : list (string * (Qc * Qc));
  row_total_drift : Qc;
  row_status : string;
  row_us : Qc * Qc;
  row_cn : Qc * Qc
}.

(** What [st.error] was given: the missing and the required column names. *)
Record SchemaError : Type := {
  missing_fields : gset string;
  required_fields : gset string
}.

(** The objects a call can reach: the module-level [CONFIG], the frame
    passed as [df], and the messages shown with [st.error]. *)
Record World : Type := {
  CONFIG : Configuration;
  df : DataFrame;
  st_errors : list SchemaError
}.

Definition TARGET_WEIGHTS (w : World) : list (string * Qc) :=
  target_weights (CONFIG w).
Definition COLS (w : World) : Columns := columns (CONFIG w).

(** ** pandas and dict operations used by the analysis *)

(** [d.get(k, default)] on a dict kept as its list of items. *)
Fixpoint dict_get (d : list (string * Qc)) (k : string) (default : Qc) : Qc :=
  match d with
  | [] => default
  | (k', v) :: d' => if decide (k' = k) then v else dict_get d' k default
  end.

(** [group[group[col_ticker] == ticker][col_mv].sum()]. *)
Definition ticker_mv (group : list HoldingRecord) (tk : string) : Qc :=
  series_sum (market_value <$> filter (λ r, ticker r = tk) group).

(** [group[col_mv].sum()]. *)
Definition total_market_value (group : list HoldingRecord) : Qc :=
  series_sum (market_value <$> group).

(** [df.groupby(col_acc)] with the defaults [sort=True] and [dropna=True]:
    the distinct keys that are not missing, in ascending order, each with
    its rows in the order of the frame. *)
Definition group_keys (rows : list HoldingRecord) : list string :=
  merge_sort String.le (remove_dups (omap account_id rows)).

Definition group_of (rows : list HoldingRecord) (k : string)
  : list HoldingRecord :=
  filter (λ r, account_id r = Some k) rows.

Definition groupby (rows : list HoldingRecord)
  : list (string * list HoldingRecord) :=
  (λ k, (k, group_of rows k)) <$> group_keys rows.

(** [df[col_ticker] = df[col_ticker].astype(str).str.strip().str.upper()] *)
Definition normalize_record (r : HoldingRecord) : HoldingRecord :=
  {| account_id := account_id r;
     ticker := normalize_ticker (ticker r);
     market_value := market_value r |}.

Definition normalize_frame (d : DataFrame) : DataFrame :=
  {| df_columns := df_columns d;
     df_rows := normalize_record <$> df_rows d |}.

(** ** The analysis *)

(** The variables the loop over [TARGET_WEIGHTS.items()] updates. *)
Record LoopState : Type := {
  cells : list (string * (Qc * Qc));
  total_abs_diff : Qc;
  holdings_mv : gmap string Qc
}.

Definition loop_init : LoopState :=
  {| cells := []; total_abs_diff := 0; holdings_mv := ∅ |}.

(** [actual / total_mv if total_mv > 0 else 0] *)
Definition ratio_of (actual total_mv : Qc) : result Qc :=
  if decide (0 < total_mv) then py_div actual total_mv else Ok 0.

(** Lines 46-58: one turn of the loop over the target tickers. *)
Definition ticker_body (group : list HoldingRecord) (total_mv : Qc)
    (st : LoopState) (item : string * Qc) : result LoopState :=
  let '(tk, target_wgt) := item in
  let actual_mv := ticker_mv group tk in
  let holdings := <[tk := actual_mv]> (holdings_mv st) in
  let* actual_ratio := ratio_of actual_mv total_mv in
  let diff := actual_ratio - target_wgt in
  Ok {| cells := cells st ++ [(tk, (actual_ratio, diff))];
        total_abs_diff := total_abs_diff st + Qcabs diff;
        holdings_mv := holdings |}.

(** [abs(ratio_us - target_us) > 0.02 or abs(ratio_cn - target_cn) > 0.02] *)
Definition is_warning (ratio_us target_us ratio_cn target_cn : Qc) : bool :=
  bool_decide (threshold < Qcabs (ratio_us - target_us))
  || bool_decide (threshold < Qcabs (ratio_cn - target_cn)).

Definition default_labels : StatusLabels :=
  {| warning := "🚨 需调仓"; normal := "✅ 正常" |}.

(** Lines 41-86: the row of one account, from its group. *)
Definition analyze_group (cfg : Configuration) (acc_id : string)
    (group : list HoldingRecord) : result Row :=
  let total_mv := total_market_value group in
  let* st := for_each (ticker_body group total_mv) (target_weights cfg)
               loop_init in
  let divisor := default default_drift_divisor (drift_divisor cfg) in
  let* drift := py_div (total_abs_diff st) divisor in
  let actual_us :=
    default 0 (holdings_mv st !! "VTI") + default 0 (holdings_mv st !! "SPY") in
  let target_us :=
    dict_get (target_weights cfg) "VTI" 0
    + dict_get (target_weights cfg) "SPY" 0 in
  let* ratio_us := ratio_of actual_us total_mv in
  let actual_cn :=
    default 0 (holdings_mv st !! "MCHI")
    + default 0 (holdings_mv st !! "ASHR") in
  let target_cn :=
    dict_get (target_weights cfg) "MCHI" 0
    + dict_get (target_weights cfg) "ASHR" 0 in
  let* ratio_cn := ratio_of actual_cn total_mv in
  let labels := default default_labels (status_labels cfg) in
  let status :=
    if is_warning ratio_us target_us ratio_cn target_cn
    then warning labels else normal labels in
  Ok {| row_account := acc_id;
        row_tickers := cells st;
        row_total_drift := drift;
        row_status := status;
        row_us := (ratio_us, ratio_us - target_us);
        row_cn := (ratio_cn, ratio_cn - target_cn) |}.

(** [{col_acc, col_ticker, col_mv}] *)
Definition required_cols (c : Columns) : gset string :=
  {[ col_account_id c; col_ticker c; col_market_value c ]}.

(** Lines 40 and 88: one turn of the loop over the groups, which appends the
    row of the account to [results]. *)
Definition group_body (cfg : Configuration) (results : list Row)
    (item : string * list HoldingRecord) : result (list Row) :=
  let '(acc_id, group) := item in
  let* row := analyze_group cfg acc_id group in
  Ok (results ++ [row]).

(** [analyze_data(df)]: the world after the call and what the call returns,
    a list of rows (empty for [pd.DataFrame()]) or the exception raised. *)
Definition analyze_data (w : World) : World * result (list Row) :=
  let present : gset string := list_to_set (df_columns (df w)) in
  if decide (required_cols (COLS w) ⊆ present) then
    let frame := normalize_frame (df w) in
    let w' := {| CONFIG := CONFIG w; df := frame; st_errors := st_errors w |} in
    (w', for_each (group_body (CONFIG w)) (groupby (df_rows frame)) [])
  else
    let missing := required_cols (COLS w) ∖ present in
    ({| CONFIG := CONFIG w; df := df w;
        st_errors := st_errors w
          ++ [{| missing_fields := missing;
                 required_fields := required_cols (COLS w) |}] |},
     Ok []).

(** ** Quantities the statements speak of *)

(** The rows of account [a] in an uploaded frame. *)
Definition account_rows (d : DataFrame) (a : string) : list HoldingRecord :=
  filter (λ r, account_id r = Some a) (df_rows d).

(** The rows among [l] that hold ticker [tk], case and surrounding
    whitespace apart. *)
Definition holding_rows (tk : string) (l : list HoldingRecord)
  : list HoldingRecord :=
  filter (λ r, normalize_ticker (ticker r) = tk) l.

(** The market value of a list of rows. *)
Definition sum_mv (l : list HoldingRecord) : Qc :=
  series_sum (market_value <$> l).

(** Market value of ticker [tk] in account [a], and of the whole account. *)
Definition account_ticker_mv (d : DataFrame) (a tk : string) : Qc :=
  sum_mv (holding_rows tk (account_rows d a)).

Definition account_total_mv (d : DataFrame) (a : string) : Qc :=
  sum_mv (account_rows d a).

(** [a / t], and 0 when [t] is not positive. *)
Definition ratio (a t : Qc) : Qc := if decide (0 < t) then a / t else 0.

(** [CONFIG['app_settings'].get('drift_divisor', 2.0)] and
    [CONFIG.get('status_labels', {...})]. *)
Definition divisor_of (cfg : Configuration) : Qc :=
  default default_drift_divisor (drift_divisor cfg).

Definition labels_of (cfg : Configuration) : StatusLabels :=
  default default_labels (status_labels cfg).

(** The three configured columns are among the columns of the upload. *)
Definition schema_ok (w : World) : Prop :=
  required_cols (COLS w) ⊆ list_to_set (df_columns (df w)).

(** A composite group: the market value its members hold in an account,
    counting the members that are target tickers, and its target. *)
Definition member_mv (d : DataFrame) (tw : list (string * Qc)) (a m : string)
  : Qc :=
  if decide (m ∈ tw.*1) then account_ticker_mv d a m else 0.

Definition group_mv (d : DataFrame) (tw : list (string * Qc)) (a : string)
    (members : list string) : Qc :=
  foldr (λ m s, member_mv d tw a m + s) 0 members.

Definition group_target (tw : list (string * Qc)) (members : list string)
  : Qc :=
  foldr (λ m s, dict_get tw m 0 + s) 0 members.

Definition us_members : list string := ["VTI"; "SPY"].
Definition cn_members : list string := ["MCHI"; "ASHR"].


(** Some row of the frame belongs to account [a]. *)
Definition has_account (d : DataFrame) (a : string) : Prop :=
  ∃ rec, rec ∈ df_rows d ∧ account_id rec = Some a.



(** The frame without the rows whose account id is missing. *)
Definition dropna (d : DataFrame) : DataFrame :=
  {| df_columns := df_columns d;
     df_rows := filter (λ r, is_Some (account_id r)) (df_rows d) |}.

(** The world in which [df] is the frame [d]. *)
Definition with_frame (w : World) (d : DataFrame) : World :=
  {| CONFIG := CONFIG w; df := d; st_errors := st_errors w |}.


Definition no_leading_space (s : string) : Prop :=
  match s with
  | EmptyString => True
  | String c _ => isspace c = false
  end.

(** ** Closed forms of the two loops, used in the proofs *)

(** The cell one turn of the ticker loop writes and the entry it records. *)
Definition ticker_cell (group : list HoldingRecord) (total_mv : Qc)
    (item : string * Qc) : string * (Qc * Qc) :=
  (item.1, (ratio (ticker_mv group item.1) total_mv,
            ratio (ticker_mv group item.1) total_mv - item.2)).

Definition record_holding (group : list HoldingRecord)
    (m : gmap string Qc) (item : string * Qc) : gmap string Qc :=
  <[item.1 := ticker_mv group item.1]> m.

(** The deviation of a target ticker and the row of an account, read on the
    upload. *)
Definition account_deviation (d : DataFrame) (a : string)
    (item : string * Qc) : Qc :=
  ratio (account_ticker_mv d a item.1) (account_total_mv d a) - item.2.

Definition account_row (cfg : Configuration) (d : DataFrame) (a : string)
  : Row :=
  let tw := target_weights cfg in
  let total := account_total_mv d a in
  let ratio_us := ratio (group_mv d tw a us_members) total in
  let ratio_cn := ratio (group_mv d tw a cn_members) total in
  {| row_account := a;
     row_tickers :=
       (λ it, (it.1, (ratio (account_ticker_mv d a it.1) total,
                      account_deviation d a it))) <$> tw;
     row_total_drift :=
       series_sum ((λ it, Qcabs (account_deviation d a it)) <$> tw)
       / divisor_of cfg;
     row_status :=
       if is_warning ratio_us (group_target tw us_members)
                     ratio_cn (group_target tw cn_members)
       then warning (labels_of cfg) else normal (labels_of cfg);
     row_us := (ratio_us, ratio_us - group_target tw us_members);
     row_cn := (ratio_cn, ratio_cn - group_target tw cn_members) |}.

(** ** A sample configuration and upload *)

(** Targets VTI 0.5, MCHI 0.3, SPY 0.1, ASHR 0.1, divisor 2, default
    labels; uploads with the columns account, ticker, market_value. *)
Definition qc (n : Z) (d : positive) : Qc := Q2Qc (n # d).

Definition sample_columns : Columns :=
  {| col_account_id := "account"; col_ticker := "ticker";
     col_market_value := "market_value" |}.

Definition sample_config : Configuration :=
  {| columns := sample_columns;
     target_weights :=
       [("VTI", qc 5 10); ("MCHI", qc 3 10); ("SPY", qc 1 10);
        ("ASHR", qc 1 10)];
     drift_divisor := Some (qc 2 1);
     status_labels := None |}.

Definition holding (a tk : string) (mv : Z) : HoldingRecord :=
  {| account_id := Some a; ticker := tk; market_value := qc mv 1 |}.

Definition sample_frame (rows : list HoldingRecord) : DataFrame :=
  {| df_columns := ["account"; "ticker"; "market_value"]; df_rows := rows |}.

Definition sample_world (rows : list HoldingRecord) : World :=
  {| CONFIG := sample_config; df := sample_frame rows; st_errors := [] |}.

(** Account A1 holding VTI 500, MCHI 200 and CASH 300, and its row. *)
Definition a1_rows : list HoldingRecord :=
  [holding "A1" "VTI" 500; holding "A1" "MCHI" 200; holding "A1" "CASH" 300].

Definition a1_world : World := sample_world a1_rows.

Definition a1_expected : Row :=
  {| row_account := "A1";
     row_tickers :=
       [("VTI", (qc 50 100, qc 0 100)); ("MCHI", (qc 20 100, qc (-10) 100));
        ("SPY", (qc 0 100, qc (-10) 100)); ("ASHR", (qc 0 100, qc (-10) 100))];
     row_total_drift := qc 15 100;
     row_status := warning default_labels;
     row_us := (qc 50 100, qc (-10) 100);
     row_cn := (qc 20 100, qc (-20) 100) |}.





(** An upload without the market value column. *)
Definition no_value_world : World :=
  {| CONFIG := sample_config;
     df := {| df_columns := ["account"; "ticker"; "shares"];
              df_rows := a1_rows |};
     st_errors := [] |}.

(** An account whose rows sum to 0, and its row. *)
Definition empty_account_world : World :=
  sample_world [holding "Z" "VTI" 0; holding "Z" "CASH" 0].

Definition empty_account_expected : Row :=
  {| row_account := "Z";
     row_tickers :=
       [("VTI", (qc 0 1, qc (-5) 10)); ("MCHI", (qc 0 1, qc (-3) 10));
        ("SPY", (qc 0 1, qc (-1) 10)); ("ASHR", (qc 0 1, qc (-1) 10))];
     row_total_drift := qc 1 2;
     row_status := warning default_labels;
     row_us := (qc 0 1, qc (-6) 10);
     row_cn := (qc 0 1, qc (-4) 10) |}.

(** A ticker in lower case between blanks. *)
Definition padded_world : World := sample_world [holding "A1" " vti " 500].

(** The upload A1 preceded by a row without account id. *)
Definition nan_world : World :=
  sample_world
    ({| account_id := None; ticker := "VTI"; market_value := qc 1000 1 |}
     :: a1_rows).

(** ** Decidable equality, to evaluate the analysis on sample uploads *)

Global Instance exn_eq_dec : EqDecision exn.
Proof. solve_decision. Defined.
Global Instance result_eq_dec {A} `{EqDecision A} : EqDecision (result A).
Proof. solve_decision. Defined.
Global Instance Row_eq_dec : EqDecision Row.
Proof. solve_decision. Defined.
Global Instance HoldingRecord_eq_dec : EqDecision HoldingRecord.
Proof. solve_decision. Defined.
Global Instance DataFrame_eq_dec : EqDecision DataFrame.
Proof. solve_decision. Defined.

Ltac by_evaluation := apply (bool_decide_unpack _); vm_compute; exact I.

(** ** The page around the analysis: lines 93-159 *)

(** Line 110 and line 112: the account cell and the status of the reference
    row. *)
Definition reference_account : string := "🎯 目标持仓标准".
Definition reference_status : string := "REFERENCE".

(** Lines 109-121: [target_row], the row of the target allocation.  Its
    cells print the target weight with the deviation "0.00%", which is what
    an analysis cell prints for a deviation of 0. *)
Definition target_row (cfg : Configuration) : Row :=
  let tw := target_weights cfg in
  let t_us := dict_get tw "VTI" 0 + dict_get tw "SPY" 0 in
  let t_cn := dict_get tw "MCHI" 0 + dict_get tw "ASHR" 0 in
  {| row_account := reference_account;
     row_tickers := (λ it, (it.1, (it.2, 0))) <$> tw;
     row_total_drift := 0;
     row_status := reference_status;
     row_us := (t_us, 0);
     row_cn := (t_cn, 0) |}.

(** [user_df.empty]: no row or no column. *)
Definition frame_empty (d : DataFrame) : bool :=
  match df_rows d, df_columns d with
  | [], _ | _, [] => true
  | _, _ => false
  end.

(** [p in s] on strings. *)
Fixpoint str_contains (p s : string) : bool :=
  String.prefix p s
  || match s with
     | EmptyString => false
     | String _ s' => str_contains p s'
     end.

(** [CONFIG.get('status_labels', {}).get('warning', "🚨")] *)
Definition warning_label (cfg : Configuration) : string :=
  match status_labels cfg with
  | Some labels => warning labels
  | None => "🚨"
  end.

Definition style_reference : string :=
  "background-color: #f0f2f6; font-weight: bold;".
Definition style_warning : string := "color: red;".

(** Lines 144-150: [style_dataframe], the style given to the cells of each
    row, by row index. *)
Definition style_dataframe (cfg : Configuration) (table : list Row)
  : list string :=
  imap (λ name x,
          if decide (name = 0%nat) then style_reference
          else if str_contains (warning_label cfg) (row_status x)
               then style_warning else "")
       table.

(** What the page ends with: [st.warning] and [st.stop] on an empty upload,
    [st.stop] on an empty analysis, the styled table, or the message of the
    exception handler. *)
Inductive PageOutcome : Type :=
  | EmptyUpload
  | NothingToShow
  | Table (final_display_df : list Row) (styles : list string)
  | ParseFailure (e : exn).

(** Lines 95-159, from the frame [user_df] read off the uploaded file on.
    [st.stop] ends the run and is not caught by [except Exception]; an
    exception of the analysis is.  The table is [target_row] on top of the
    rows of the analysis; [final_display_df[cols_order]] only orders its
    columns. *)
Definition upload_page (w : World) : World * PageOutcome :=
  if frame_empty (df w) then (w, EmptyUpload)
  else
    let '(w', res) := analyze_data w in
    match res with
    | Raise e => (w', ParseFailure e)
    | Ok [] => (w', NothingToShow)
    | Ok analysis_res =>
        let final_display_df := target_row (CONFIG w') :: analysis_res in
        (w', Table final_display_df
               (style_dataframe (CONFIG w') final_display_df))
    end.

(** ** Further quantities the statements speak of *)








(** Uploads for the page. *)
Definition two_account_world : World :=
  sample_world [holding "B" "VTI" 600; holding "A" "VTI" 500;
                holding "A" "MCHI" 300; holding "B" "SPY" 400;
                holding "A" "SPY" 100; holding "A" "ASHR" 100].

Definition no_account_world : World :=
  sample_world
    [{| account_id := None; ticker := "VTI"; market_value := qc 10 1 |}].

Definition header_only_world : World :=
  {| CONFIG := sample_config;
     df := {| df_columns := ["account"; "ticker"]; df_rows := [] |};
     st_errors := [] |}.

Global Instance PageOutcome_eq_dec : EqDecision PageOutcome.
Proof. solve_decision. Defined.

(** ** Sums and divisions *)

Lemma foldl_Qcplus_shift (a : Qc) (l : list Qc) :
  foldl Qcplus a l = a + series_sum l.
Proof.
  unfold series_sum. revert a.
  induction l as [|x l IH]; intros a; simpl.
  - ring.
  - rewrite (IH (a + x)), (IH (0 + x)). ring.
Qed.

Lemma series_sum_nil : series_sum [] = 0.
Proof. reflexivity. Qed.

Lemma series_sum_cons (x : Qc) (l : list Qc) :
  series_sum (x :: l) = x + series_sum l.
Proof.
  unfold series_sum at 1. simpl. rewrite foldl_Qcplus_shift. ring.
Qed.

Lemma py_div_ok (a b : Qc) : b ≠ 0 → py_div a b = Ok (a / b).
Proof. intros Hb. unfold py_div. by destruct (decide (b = 0)). Qed.

Lemma ratio_of_ok (a t : Qc) : ratio_of a t = Ok (ratio a t).
Proof.
  unfold ratio_of, ratio. destruct (decide (0 < t)) as [Ht|Ht]; [|done].
  apply py_div_ok. intros ->. by apply (Qclt_not_eq 0 0).
Qed.

Lemma ratio_pos (a t : Qc) : 0 < t → ratio a t = a / t.
Proof. intros Ht. unfold ratio. by destruct (decide (0 < t)). Qed.

Lemma ratio_zero_total (a : Qc) : ratio a 0 = 0.
Proof.
  unfold ratio. destruct (decide (0 < 0)) as [H|H]; [|done].
  by destruct (Qclt_not_eq 0 0).
Qed.

(** ** The loop over the target tickers *)

Lemma ticker_loop_run group total_mv tw st :
  for_each (ticker_body group total_mv) tw st =
  Ok {| cells := cells st ++ (ticker_cell group total_mv <$> tw);
        total_abs_diff :=
          total_abs_diff st
          + series_sum ((λ it, Qcabs (ticker_cell group total_mv it).2.2)
                          <$> tw);
        holdings_mv := foldl (record_holding group) (holdings_mv st) tw |}.
Proof.
  revert st. induction tw as [|[tk wgt] tw IH]; intros [cs tot hs]; simpl.
  - rewrite app_nil_r. do 2 f_equal. rewrite series_sum_nil. ring.
  - rewrite ratio_of_ok. simpl. rewrite IH. simpl.
    rewrite <- app_assoc. simpl. do 2 f_equal.
    rewrite series_sum_cons, Qcplus_assoc. reflexivity.
Qed.

Lemma holdings_lookup group (tw : list (string * Qc)) (m : gmap string Qc)
    (k : string) :
  foldl (record_holding group) m tw !! k =
  if decide (k ∈ tw.*1) then Some (ticker_mv group k) else m !! k.
Proof.
  revert m. induction tw as [|[tk wgt] tw IH]; intros m; simpl.
  - destruct (decide (k ∈ [])) as [H|H]; [by apply elem_of_nil in H|done].
  - rewrite IH. unfold record_holding. simpl.
    destruct (decide (k ∈ tw.*1)) as [Hin|Hin].
    + rewrite decide_True; [done|]. by apply elem_of_cons; right.
    + destruct (decide (k = tk)) as [->|Hne].
      * rewrite lookup_insert_eq. rewrite decide_True; [done|].
        apply elem_of_cons; by left.
      * rewrite lookup_insert_ne by done.
        rewrite decide_False; [done|].
        intros [?|?]%elem_of_cons; done.
Qed.

(** ** Groups of the normalised frame, read on the uploaded frame *)

Lemma group_of_normalize rows a :
  group_of (normalize_record <$> rows) a = normalize_record <$> group_of rows a.
Proof.
  unfold group_of. induction rows as [|r rows IH]; [done|].
  rewrite fmap_cons, !filter_cons. cbn [account_id normalize_record].
  destruct (decide (account_id r = Some a));
    [rewrite fmap_cons; f_equal|]; exact IH.
Qed.

Lemma group_keys_normalize rows :
  group_keys (normalize_record <$> rows) = group_keys rows.
Proof.
  unfold group_keys. do 2 f_equal.
  induction rows as [|r rows IH]; [done|].
  simpl. destruct (account_id r); [f_equal|]; exact IH.
Qed.

Lemma ticker_mv_normalize g tk :
  ticker_mv (normalize_record <$> g) tk = sum_mv (holding_rows tk g).
Proof.
  unfold ticker_mv, sum_mv, holding_rows. f_equal.
  induction g as [|r g IH]; [done|].
  rewrite fmap_cons, !filter_cons. cbn [ticker normalize_record].
  destruct (decide (normalize_ticker (ticker r) = tk));
    [rewrite !fmap_cons; f_equal|]; exact IH.
Qed.

Lemma total_market_value_normalize g :
  total_market_value (normalize_record <$> g) = sum_mv g.
Proof.
  unfold total_market_value, sum_mv. f_equal.
  rewrite <- list_fmap_compose. done.
Qed.

(** ** One account, in closed form *)

Lemma group_mv_pair d tw a m1 m2 :
  group_mv d tw a [m1; m2] = member_mv d tw a m1 + member_mv d tw a m2.
Proof. unfold group_mv. simpl. ring. Qed.

Lemma group_target_pair tw m1 m2 :
  group_target tw [m1; m2] = dict_get tw m1 0 + dict_get tw m2 0.
Proof. unfold group_target. simpl. ring. Qed.

Lemma held_member cfg d a m :
  default 0
    (foldl (record_holding (normalize_record <$> account_rows d a)) ∅
       (target_weights cfg) !! m)
  = member_mv d (target_weights cfg) a m.
Proof.
  rewrite holdings_lookup. unfold member_mv.
  destruct (decide (m ∈ (target_weights cfg).*1)); simpl.
  - apply ticker_mv_normalize.
  - by rewrite lookup_empty.
Qed.

Lemma analyze_group_run cfg d a :
  divisor_of cfg ≠ 0 →
  analyze_group cfg a (normalize_record <$> account_rows d a)
  = Ok (account_row cfg d a).
Proof.
  intros Hdiv. unfold analyze_group.
  rewrite ticker_loop_run. cbn [bind loop_init cells total_abs_diff holdings_mv].
  fold (divisor_of cfg). rewrite (py_div_ok _ _ Hdiv). cbn [bind].
  rewrite !ratio_of_ok. cbn [bind].
  rewrite !held_member, total_market_value_normalize.
  fold (account_total_mv d a).
  unfold account_row, us_members, cn_members.
  rewrite !group_mv_pair, !group_target_pair.
  fold (labels_of cfg). f_equal. f_equal.
  - apply list_fmap_ext. intros i [tk wgt] _. unfold ticker_cell. simpl.
    by rewrite ticker_mv_normalize.
  - f_equal. rewrite Qcplus_0_l. f_equal.
    apply list_fmap_ext. intros i [tk wgt] _. unfold ticker_cell. simpl.
    by rewrite ticker_mv_normalize.
Qed.

Lemma analyze_group_zero_divisor cfg a g :
  divisor_of cfg = 0 → analyze_group cfg a g = Raise ZeroDivisionError.
Proof.
  intros Hdiv. unfold analyze_group.
  rewrite ticker_loop_run. cbn [bind]. fold (divisor_of cfg).
  unfold py_div. by rewrite decide_True.
Qed.

(** ** The loop over the groups *)

Lemma group_loop_run cfg d keys results :
  divisor_of cfg ≠ 0 →
  for_each (group_body cfg)
    ((λ k, (k, group_of (normalize_record <$> df_rows d) k)) <$> keys) results
  = Ok (results ++ (account_row cfg d <$> keys)).
Proof.
  intros Hdiv. revert results.
  induction keys as [|k keys IH]; intros results.
  - simpl. by rewrite app_nil_r.
  - rewrite !fmap_cons. cbn [for_each group_body].
    rewrite group_of_normalize.
    change (group_of (df_rows d) k) with (account_rows d k).
    rewrite (analyze_group_run _ _ _ Hdiv). cbn [bind].
    rewrite IH, <- app_assoc. done.
Qed.

Lemma analyze_data_ok_world w :
  schema_ok w →
  (analyze_data w).1 =
  {| CONFIG := CONFIG w; df := normalize_frame (df w);
     st_errors := st_errors w |}.
Proof.
  intros Hs. unfold analyze_data. by rewrite decide_True.
Qed.

Lemma analyze_data_ok_result w :
  schema_ok w →
  (analyze_data w).2 =
  for_each (group_body (CONFIG w)) (groupby (df_rows (normalize_frame (df w))))
    [].
Proof.
  intros Hs. unfold analyze_data. by rewrite decide_True.
Qed.

Lemma analyze_data_run w :
  schema_ok w → divisor_of (CONFIG w) ≠ 0 →
  (analyze_data w).2 =
  Ok (account_row (CONFIG w) (df w) <$> group_keys (df_rows (df w))).
Proof.
  intros Hs Hdiv. rewrite (analyze_data_ok_result _ Hs).
  unfold groupby. cbn [df_rows normalize_frame].
  rewrite group_keys_normalize.
  by rewrite (group_loop_run (CONFIG w) (df w) _ [] Hdiv).
Qed.



(** ** The keys of [groupby] *)

Lemma elem_of_group_keys rows a :
  a ∈ group_keys rows ↔ ∃ r, r ∈ rows ∧ account_id r = Some a.
Proof.
  unfold group_keys.
  rewrite (merge_sort_Permutation String.le), elem_of_remove_dups.
  apply list_elem_of_omap.
Qed.



Lemma account_row_accounts cfg d (keys : list string) :
  row_account <$> (account_row cfg d <$> keys) = keys.
Proof.
  rewrite <- list_fmap_compose. induction keys as [|k keys IH]; [done|].
  rewrite fmap_cons. f_equal. exact IH.
Qed.

Lemma elem_of_result_rows cfg d (keys : list string) r :
  r ∈ account_row cfg d <$> keys →
  r = account_row cfg d (row_account r) ∧ row_account r ∈ keys.
Proof.
  intros (a & -> & Ha)%list_elem_of_fmap. done.
Qed.

(** ** Strip and upper *)

Lemma isspace_upper_char c : isspace (upper_char c) = isspace c.
Proof. by destruct c as [[] [] [] [] [] [] [] []]. Qed.

Lemma upper_char_idemp c : upper_char (upper_char c) = upper_char c.
Proof. by destruct c as [[] [] [] [] [] [] [] []]. Qed.

Lemma str_upper_idemp s : str_upper (str_upper s) = str_upper s.
Proof.
  induction s as [|c s IH]; [done|]. simpl. by rewrite upper_char_idemp, IH.
Qed.

Lemma str_upper_lstrip s : str_upper (str_lstrip s) = str_lstrip (str_upper s).
Proof.
  induction s as [|c s IH]; [done|]. simpl. rewrite isspace_upper_char.
  by destruct (isspace c).
Qed.

Lemma str_upper_rstrip s : str_upper (str_rstrip s) = str_rstrip (str_upper s).
Proof.
  induction s as [|c s IH]; [done|]. simpl. rewrite <- IH, isspace_upper_char.
  destruct (str_rstrip s); simpl; [by destruct (isspace c)|done].
Qed.

Lemma str_upper_strip s : str_upper (str_strip s) = str_strip (str_upper s).
Proof. unfold str_strip. by rewrite str_upper_rstrip, str_upper_lstrip. Qed.

Lemma str_lstrip_no_leading_space s : no_leading_space (str_lstrip s).
Proof.
  induction s as [|c s IH]; [done|]. simpl.
  destruct (isspace c) eqn:Hc; [done|]. simpl. done.
Qed.

Lemma str_rstrip_no_leading_space s :
  no_leading_space s → no_leading_space (str_rstrip s).
Proof.
  destruct s as [|c s]; [done|]. simpl. intros Hc.
  destruct (str_rstrip s); [|done]. by rewrite Hc.
Qed.

Lemma str_lstrip_id s : no_leading_space s → str_lstrip s = s.
Proof. destruct s as [|c s]; [done|]. simpl. by intros ->. Qed.

Lemma str_rstrip_idemp s : str_rstrip (str_rstrip s) = str_rstrip s.
Proof.
  induction s as [|c s IH]; [done|]. simpl.
  destruct (str_rstrip s) as [|c' t] eqn:Hs.
  - destruct (isspace c) eqn:Hc; [done|]. simpl. by rewrite Hc.
  - change (str_rstrip (String c (String c' t)))
      with (match str_rstrip (String c' t) with
            | EmptyString =>
                if isspace c then EmptyString else String c EmptyString
            | u => String c u
            end).
    by rewrite IH.
Qed.

Lemma str_strip_idemp s : str_strip (str_strip s) = str_strip s.
Proof.
  unfold str_strip. rewrite (str_lstrip_id (str_rstrip _)).
  - apply str_rstrip_idemp.
  - apply str_rstrip_no_leading_space, str_lstrip_no_leading_space.
Qed.

Lemma normalize_ticker_idemp s :
  normalize_ticker (normalize_ticker s) = normalize_ticker s.
Proof.
  unfold normalize_ticker.
  by rewrite <- str_upper_strip, str_upper_idemp, str_strip_idemp.
Qed.








(** ** The rows of a successful call *)

Lemma analyze_data_rows w :
  schema_ok w → divisor_of (CONFIG w) ≠ 0 →
  ∃ rows,
    (analyze_data w).2 = Ok rows
    ∧ row_account <$> rows = group_keys (df_rows (df w))
    ∧ ∀ r, r ∈ rows →
        r = account_row (CONFIG w) (df w) (row_account r)
        ∧ has_account (df w) (row_account r).
Proof.
  intros Hs Hdiv. eexists. split; [by apply analyze_data_run|].
  split; [apply account_row_accounts|].
  intros r [Hr Hk]%elem_of_result_rows. split; [done|].
  by apply elem_of_group_keys.
Qed.

Lemma a1_result : (analyze_data a1_world).2 = Ok [a1_expected].
Proof. by_evaluation. Qed.

(** C1. For an account whose total market value is positive, the cell of
    each target ticker, in configured order, holds the ticker's share of the
    account's total market value and that share minus the target weight, and
    the total drift rate is the sum of the absolute deviations divided by
    the drift divisor.  On the upload A1 = VTI 500, MCHI 200, CASH 300 with
    targets VTI 0.5, MCHI 0.3, SPY 0.1, ASHR 0.1 and divisor 2 this gives
    the ratios 0.50, 0.20, 0, 0, the deviations 0, -0.10, -0.10, -0.10 and
    the drift rate 0.15. *)
Theorem drift_rate_formula :
  (∀ w, schema_ok w → divisor_of (CONFIG w) ≠ 0 →
     ∃ rows, (analyze_data w).2 = Ok rows ∧
       ∀ r, r ∈ rows →
         let a := row_account r in
         let total := account_total_mv (df w) a in
         let actual_ratio tk := account_ticker_mv (df w) a tk / total in
         0 < total →
         row_tickers r =
           (λ it, (it.1, (actual_ratio it.1, actual_ratio it.1 - it.2)))
             <$> TARGET_WEIGHTS w
         ∧ row_total_drift r =
             series_sum ((λ it, Qcabs (actual_ratio it.1 - it.2))
                           <$> TARGET_WEIGHTS w)
             / divisor_of (CONFIG w))
  ∧ (analyze_data a1_world).2 = Ok [a1_expected].
Proof.
  split; [|exact a1_result].
  intros w Hs Hdiv.
  destruct (analyze_data_rows w Hs Hdiv) as (rows & Hrun & _ & Hrows).
  exists rows. split; [done|].
  intros r Hr a total actual_ratio Htotal.
  destruct (Hrows r Hr) as [Heq _]. rewrite Heq at 1 2.
  unfold account_row, account_deviation; cbn [row_tickers row_total_drift].
  fold a. fold total. split.
  - apply list_fmap_ext. intros i it _. by rewrite ratio_pos.
  - do 2 f_equal. apply list_fmap_ext. intros i it _. by rewrite ratio_pos.
Qed.

Lemma drift_rate_formula_witness :
  0 < account_total_mv (df a1_world) "A1"
  ∧ row_tickers a1_expected =
      (λ it, (it.1,
              (account_ticker_mv (df a1_world) "A1" it.1
               / account_total_mv (df a1_world) "A1",
               account_ticker_mv (df a1_world) "A1" it.1
               / account_total_mv (df a1_world) "A1" - it.2)))
        <$> TARGET_WEIGHTS a1_world
  ∧ row_total_drift a1_expected =
      series_sum
        ((λ it, Qcabs (account_ticker_mv (df a1_world) "A1" it.1
                       / account_total_mv (df a1_world) "A1" - it.2))
           <$> TARGET_WEIGHTS a1_world)
      / divisor_of (CONFIG a1_world).
Proof.
  destruct (proj1 drift_rate_formula a1_world) as (rows & Hrun & Hrows).
  - unfold schema_ok. apply (bool_decide_unpack _). vm_compute. exact I.
  - intros H. apply (f_equal this) in H. vm_compute in H. discriminate H.
  - rewrite (proj2 drift_rate_formula) in Hrun. injection Hrun as <-.
    assert (0 < account_total_mv (df a1_world) "A1") as Hpos.
    { apply (bool_decide_unpack _). vm_compute. exact I. }
    split; [exact Hpos|].
    apply (Hrows a1_expected); [apply list_elem_of_here | exact Hpos].
Defined.

(** ** The composite rule *)





(** ** The order of the rows *)




(** ** Missing columns *)

Lemma analyze_data_schema_error w :
  ¬ schema_ok w →
  analyze_data w =
  ({| CONFIG := CONFIG w; df := df w;
      st_errors := st_errors w
        ++ [{| missing_fields :=
                 required_cols (COLS w) ∖ list_to_set (df_columns (df w));
               required_fields := required_cols (COLS w) |}] |},
   Ok []).
Proof. intros Hs. unfold analyze_data. by rewrite decide_False. Qed.

Lemma elem_of_required_cols (c : Columns) (x : string) :
  x ∈ required_cols c ↔
  x ∈ [col_account_id c; col_ticker c; col_market_value c].
Proof.
  unfold required_cols.
  rewrite !elem_of_union, !elem_of_singleton, !elem_of_cons, elem_of_nil.
  tauto.
Qed.

(** C4. When one of the three configured columns is absent from the
    upload, the call reports one schema error whose missing fields are
    exactly the configured columns that the upload lacks, returns the empty
    table, and leaves the frame as it was: no row has been read. *)
Theorem missing_columns_schema_error (w : World) (c : string) :
  c ∈ [col_account_id (COLS w); col_ticker (COLS w);
       col_market_value (COLS w)] →
  c ∉ df_columns (df w) →
  ∃ e,
    analyze_data w =
      ({| CONFIG := CONFIG w; df := df w; st_errors := st_errors w ++ [e] |},
       Ok [])
    ∧ c ∈ missing_fields e
    ∧ ∀ x, x ∈ missing_fields e ↔
        x ∈ [col_account_id (COLS w); col_ticker (COLS w);
             col_market_value (COLS w)]
        ∧ x ∉ df_columns (df w).
Proof.
  intros Hc Hnot.
  assert (¬ schema_ok w) as Hs.
  { intros Hs. apply Hnot. apply elem_of_required_cols in Hc.
    specialize (Hs c Hc). by apply elem_of_list_to_set in Hs. }
  eexists. split; [by apply analyze_data_schema_error|].
  cbn [missing_fields].
  assert (∀ x, x ∈ required_cols (COLS w) ∖ list_to_set (df_columns (df w))
               ↔ x ∈ [col_account_id (COLS w); col_ticker (COLS w);
                      col_market_value (COLS w)]
                 ∧ x ∉ df_columns (df w)) as Hmiss.
  { intros x.
    rewrite elem_of_difference, elem_of_required_cols, elem_of_list_to_set.
    done. }
  split; [by apply Hmiss|done].
Qed.

Lemma missing_columns_schema_error_witness :
  ∃ e,
    analyze_data no_value_world =
      ({| CONFIG := sample_config; df := df no_value_world;
          st_errors := [e] |}, Ok [])
    ∧ "market_value" ∈ missing_fields e
    ∧ ∀ x, x ∈ missing_fields e ↔
        x ∈ ["account"; "ticker"; "market_value"]
        ∧ x ∉ ["account"; "ticker"; "shares"].
Proof.
  apply (missing_columns_schema_error no_value_world "market_value").
  - apply (bool_decide_unpack _). vm_compute. exact I.
  - apply (bool_decide_unpack _). vm_compute. exact I.
Defined.

(** ** An account without market value *)

Lemma Qcabs_zero_minus (x : Qc) : (0 ≤ x)%Qc → Qcabs (0 - x) = x.
Proof.
  intros Hx. rewrite Qcabs_Qcminus.
  assert (x - 0 = x) as -> by ring. by apply Qcabs_pos.
Qed.

(** C5. For an account whose total market value is 0 the call raises
    nothing, the ratio of every target ticker and of both composite groups
    is 0, and the total drift rate is the sum of the target weights divided
    by the drift divisor; the ratio of anything to a total of 0 is 0, with
    no division evaluated. *)
Theorem zero_total_ratios (w : World) :
  schema_ok w → divisor_of (CONFIG w) ≠ 0 →
  (∀ it, it ∈ TARGET_WEIGHTS w → (0 ≤ it.2)%Qc) →
  (∀ actual, ratio_of actual 0 = Ok 0)
  ∧ ∃ rows, (analyze_data w).2 = Ok rows ∧
      ∀ r, r ∈ rows → account_total_mv (df w) (row_account r) = 0 →
        (∀ cell, cell ∈ row_tickers r → cell.2.1 = 0)
        ∧ (row_us r).1 = 0
        ∧ (row_cn r).1 = 0
        ∧ row_total_drift r =
            series_sum ((TARGET_WEIGHTS w).*2) / divisor_of (CONFIG w).
Proof.
  intros Hs Hdiv Hnonneg. split.
  { intros actual. by rewrite ratio_of_ok, ratio_zero_total. }
  destruct (analyze_data_rows w Hs Hdiv) as (rows & Hrun & _ & Hrows).
  exists rows. split; [done|].
  intros r Hr Hzero. destruct (Hrows r Hr) as [Heq _].
  revert Heq Hzero. generalize (row_account r) as a. intros a -> Hzero.
  unfold account_row, account_deviation.
  cbn [row_tickers row_us row_cn row_total_drift fst snd].
  rewrite Hzero, !ratio_zero_total.
  split; [|split; [done|split; [done|]]].
  - intros cell (it & -> & _)%list_elem_of_fmap. simpl.
    apply ratio_zero_total.
  - do 2 f_equal. apply list_fmap_ext. intros i it Hit.
    rewrite ratio_zero_total. apply Qcabs_zero_minus, Hnonneg.
    by apply list_elem_of_lookup_2 in Hit.
Qed.

Lemma zero_total_ratios_witness :
  (analyze_data empty_account_world).2 = Ok [empty_account_expected]
  ∧ account_total_mv (df empty_account_world) "Z" = 0
  ∧ (∀ cell, cell ∈ row_tickers empty_account_expected → cell.2.1 = 0)
  ∧ (row_us empty_account_expected).1 = 0
  ∧ (row_cn empty_account_expected).1 = 0
  ∧ row_total_drift empty_account_expected =
      series_sum ((TARGET_WEIGHTS empty_account_world).*2)
      / divisor_of (CONFIG empty_account_world).
Proof.
  destruct (zero_total_ratios empty_account_world)
    as (_ & rows & Hrun & Hrows).
  - unfold schema_ok. apply (bool_decide_unpack _). vm_compute. exact I.
  - intros H. apply (f_equal this) in H. vm_compute in H. discriminate H.
  - apply (proj1 (list.Forall_forall (λ it : string * Qc, (0 ≤ it.2)%Qc) _)).
    apply (bool_decide_unpack _). vm_compute. exact I.
  - assert ((analyze_data empty_account_world).2
            = Ok [empty_account_expected]) as Hres.
    { apply (bool_decide_unpack _). vm_compute. exact I. }
    rewrite Hres in Hrun. injection Hrun as <-.
    assert (account_total_mv (df empty_account_world) "Z" = 0) as Hzero.
    { apply (bool_decide_unpack _). vm_compute. exact I. }
    split; [exact Hres|]. split; [exact Hzero|].
    apply (Hrows empty_account_expected); [apply list_elem_of_here|exact Hzero].
Defined.

(** ** Target tickers an account does not hold *)

Lemma ratio_zero_actual (t : Qc) : ratio 0 t = 0.
Proof.
  unfold ratio. destruct (decide (0 < t)); [|done]. unfold Qcdiv. ring.
Qed.

(** C6. In every row the per-ticker columns are the keys of the target
    weights, in their order, whatever the account holds; a target ticker
    of which the account has no row has market value 0 and the cell with
    ratio 0 and deviation minus the target weight. *)
Theorem ticker_columns_are_target_keys (w : World) :
  schema_ok w → divisor_of (CONFIG w) ≠ 0 →
  ∃ rows, (analyze_data w).2 = Ok rows ∧
    ∀ r, r ∈ rows →
      (row_tickers r).*1 = (TARGET_WEIGHTS w).*1
      ∧ ∀ tk wgt, (tk, wgt) ∈ TARGET_WEIGHTS w →
          holding_rows tk (account_rows (df w) (row_account r)) = [] →
          account_ticker_mv (df w) (row_account r) tk = 0
          ∧ (tk, (0, - wgt)) ∈ row_tickers r.
Proof.
  intros Hs Hdiv.
  destruct (analyze_data_rows w Hs Hdiv) as (rows & Hrun & _ & Hrows).
  exists rows. split; [done|].
  intros r Hr. destruct (Hrows r Hr) as [Heq _].
  revert Heq. generalize (row_account r) as a. intros a ->.
  unfold account_row. cbn [row_tickers]. split.
  - rewrite <- list_fmap_compose. apply list_fmap_ext. by intros i [tk wgt] _.
  - intros tk wgt Hin Hnone.
    assert (account_ticker_mv (df w) a tk = 0) as Hmv.
    { unfold account_ticker_mv. by rewrite Hnone. }
    split; [done|].
    apply list_elem_of_fmap. exists (tk, wgt). split; [|done].
    unfold account_deviation. simpl. rewrite Hmv, ratio_zero_actual.
    do 2 f_equal. ring.
Qed.

Lemma ticker_columns_are_target_keys_witness :
  (row_tickers a1_expected).*1 = ["VTI"; "MCHI"; "SPY"; "ASHR"]
  ∧ holding_rows "SPY" (account_rows (df a1_world) "A1") = []
  ∧ account_ticker_mv (df a1_world) "A1" "SPY" = 0
  ∧ ("SPY", (0, - qc 1 10)) ∈ row_tickers a1_expected.
Proof.
  destruct (ticker_columns_are_target_keys a1_world) as (rows & Hrun & Hrows).
  - unfold schema_ok. apply (bool_decide_unpack _). vm_compute. exact I.
  - intros H. apply (f_equal this) in H. vm_compute in H. discriminate H.
  - assert ((analyze_data a1_world).2 = Ok [a1_expected]) as Hres.
    { apply (bool_decide_unpack _). vm_compute. exact I. }
    rewrite Hres in Hrun. injection Hrun as <-.
    destruct (Hrows a1_expected (list_elem_of_here _ _)) as [Hkeys Habsent].
    assert (holding_rows "SPY" (account_rows (df a1_world) "A1") = [])
      as Hnone by (vm_compute; reflexivity).
    split; [exact Hkeys|]. split; [exact Hnone|].
    apply (Habsent "SPY" (qc 1 10)); [|exact Hnone].
    apply (bool_decide_unpack _). vm_compute. exact I.
Defined.

(** ** The denominator *)

Lemma sum_mv_split (P : HoldingRecord → Prop) `{∀ x, Decision (P x)}
    (l : list HoldingRecord) :
  sum_mv l = sum_mv (filter P l) + sum_mv (filter (λ x, ¬ P x) l).
Proof.
  unfold sum_mv. induction l as [|x l IH].
  - rewrite !filter_nil, fmap_nil, series_sum_nil. ring.
  - rewrite !filter_cons, fmap_cons, series_sum_cons, IH.
    destruct (decide (P x)) as [HP|HP].
    + rewrite decide_False by tauto.
      rewrite fmap_cons, series_sum_cons. ring.
    + rewrite decide_True by done.
      rewrite fmap_cons, series_sum_cons. ring.
Qed.



(** ** Case and surrounding whitespace of tickers *)

Lemma analyze_data_result_eq w1 w2 :
  CONFIG w1 = CONFIG w2 →
  df_columns (df w1) = df_columns (df w2) →
  normalize_record <$> df_rows (df w1) = normalize_record <$> df_rows (df w2) →
  (analyze_data w1).2 = (analyze_data w2).2.
Proof.
  intros Hc Hcols Hrows. unfold analyze_data, COLS.
  rewrite Hc, Hcols.
  destruct (decide (required_cols (columns (CONFIG w2))
                    ⊆ list_to_set (df_columns (df w2)))); [|done].
  cbn [snd df_rows normalize_frame]. by rewrite Hrows.
Qed.




(** ** What a call changes *)

Lemma normalize_frame_idemp d :
  normalize_frame (normalize_frame d) = normalize_frame d.
Proof.
  unfold normalize_frame. cbn [df_columns df_rows]. f_equal.
  rewrite <- list_fmap_compose. apply list_fmap_ext. intros i r _.
  unfold normalize_record. simpl. by rewrite normalize_ticker_idemp.
Qed.

(** C9 as stated fails: after the call the frame that was passed holds the
    ticker "VTI" where the upload had " vti ". *)
Lemma input_frame_overwritten :
  df (analyze_data padded_world).1 ≠ df padded_world
  ∧ ticker <$> df_rows (df padded_world) = [" vti "]
  ∧ ticker <$> df_rows (df (analyze_data padded_world).1) = ["VTI"].
Proof. by_evaluation. Qed.

(** C9, as the code has it.  A call leaves the configuration, the column
    names, the account ids and the market values of the frame unchanged,
    and when the required columns are present it overwrites the tickers of
    the frame with the normalised tickers.  A second call on the same frame
    returns the same result and changes the frame no further. *)
Theorem call_overwrites_tickers_only (w : World) :
  let w' := (analyze_data w).1 in
  CONFIG w' = CONFIG w
  ∧ df_columns (df w') = df_columns (df w)
  ∧ account_id <$> df_rows (df w') = account_id <$> df_rows (df w)
  ∧ market_value <$> df_rows (df w') = market_value <$> df_rows (df w)
  ∧ ticker <$> df_rows (df w') =
      (if decide (schema_ok w) then normalize_ticker ∘ ticker else ticker)
        <$> df_rows (df w)
  ∧ (analyze_data w').2 = (analyze_data w).2
  ∧ df (analyze_data w').1 = df w'.
Proof.
  intros w'. subst w'. destruct (decide (schema_ok w)) as [Hs|Hs].
  - rewrite (analyze_data_ok_world w Hs).
    set (w' := {| CONFIG := CONFIG w; df := normalize_frame (df w);
                  st_errors := st_errors w |}).
    assert (schema_ok w') as Hs' by exact Hs.
    assert (∀ {B} (f g : HoldingRecord → B),
              (∀ r, f (normalize_record r) = g r) →
              f <$> df_rows (df w') = g <$> df_rows (df w)) as Hmap.
    { intros B f g Hfg. cbn [df w' df_rows normalize_frame].
      rewrite <- list_fmap_compose. apply list_fmap_ext. intros i r _.
      apply Hfg. }
    split; [done|]. split; [done|].
    split; [by apply Hmap|]. split; [by apply Hmap|].
    split; [by apply Hmap|]. split.
    + apply analyze_data_result_eq; [done..|].
      cbn [df w' df_rows normalize_frame].
      rewrite <- list_fmap_compose. apply list_fmap_ext. intros i r _.
      unfold normalize_record. simpl. by rewrite normalize_ticker_idemp.
    + rewrite (analyze_data_ok_world w' Hs').
      cbn [df w']. apply normalize_frame_idemp.
  - rewrite (analyze_data_schema_error w Hs).
    set (w' := {| CONFIG := CONFIG w; df := df w; st_errors := _ |}).
    assert (¬ schema_ok w') as Hs' by exact Hs.
    cbn [fst snd CONFIG df].
    repeat (split; [done|]).
    by rewrite (analyze_data_schema_error w' Hs').
Qed.

(** ** Rows without account id *)

Lemma filter_account_dropna (rows : list HoldingRecord) a :
  filter (λ r, account_id r = Some a)
    (filter (λ r, is_Some (account_id r)) rows)
  = filter (λ r, account_id r = Some a) rows.
Proof.
  induction rows as [|r rows IH]; [done|].
  rewrite !filter_cons.
  destruct (decide (is_Some (account_id r))) as [Hsome|Hnone].
  - rewrite filter_cons. by rewrite IH.
  - rewrite IH. rewrite decide_False; [done|].
    intros Heq. apply Hnone. by rewrite Heq.
Qed.

Lemma omap_account_dropna (rows : list HoldingRecord) :
  omap account_id (filter (λ r, is_Some (account_id r)) rows)
  = omap account_id rows.
Proof.
  induction rows as [|r rows IH]; [done|].
  rewrite filter_cons.
  destruct (decide (is_Some (account_id r))) as [[a Ha]|Hnone].
  - simpl. rewrite Ha. f_equal. exact IH.
  - simpl. destruct (account_id r) as [a|] eqn:Ha; [|exact IH].
    destruct Hnone. by exists a.
Qed.

Lemma normalize_dropna (rows : list HoldingRecord) :
  normalize_record <$> filter (λ r, is_Some (account_id r)) rows
  = filter (λ r, is_Some (account_id r)) (normalize_record <$> rows).
Proof.
  induction rows as [|r rows IH]; [done|].
  rewrite fmap_cons, !filter_cons. cbn [account_id normalize_record].
  destruct (decide (is_Some (account_id r)));
    [rewrite fmap_cons; f_equal|]; exact IH.
Qed.

Lemma groupby_dropna (rows : list HoldingRecord) :
  groupby (filter (λ r, is_Some (account_id r)) rows) = groupby rows.
Proof.
  unfold groupby, group_keys, group_of. rewrite omap_account_dropna.
  apply list_fmap_ext. intros i k _. f_equal. apply filter_account_dropna.
Qed.

Lemma analyze_group_account cfg a g r :
  analyze_group cfg a g = Ok r → row_account r = a.
Proof.
  unfold analyze_group. rewrite ticker_loop_run. cbn [bind].
  destruct (py_div _ _); [|done]. cbn [bind].
  rewrite !ratio_of_ok. cbn [bind]. by intros [= <-].
Qed.

Lemma group_loop_accounts cfg items results rows :
  for_each (group_body cfg) items results = Ok rows →
  row_account <$> rows = (row_account <$> results) ++ items.*1.
Proof.
  revert results. induction items as [|[a g] items IH]; intros results; simpl.
  - intros [= <-]. by rewrite app_nil_r.
  - destruct (analyze_group cfg a g) as [r|e] eqn:Hr; [|done]. simpl.
    intros Hrun. rewrite (IH _ Hrun), fmap_app, <- app_assoc. simpl.
    by rewrite (analyze_group_account _ _ _ _ Hr).
Qed.

Lemma groupby_keys rows : (groupby rows).*1 = group_keys rows.
Proof.
  unfold groupby. rewrite <- list_fmap_compose.
  generalize (group_keys rows) as keys.
  induction keys as [|k keys IH]; [done|]. rewrite fmap_cons. by f_equal.
Qed.

Lemma nan_world_result : (analyze_data nan_world).2 = Ok [a1_expected].
Proof. by_evaluation. Qed.

(** C10. A row whose account id is missing takes no part in the analysis:
    the call returns what it returns on the upload without such rows,
    be it a table or an exception, the rows count in no account's total
    market value, and every row of the result belongs to an account id that
    is present in the upload.  An upload A1 with one more row of market
    value 1000 and no account id gives the result of A1 alone. *)
Theorem missing_account_rows_dropped :
  (∀ w,
     (analyze_data w).2 = (analyze_data (with_frame w (dropna (df w)))).2
     ∧ (∀ a, account_total_mv (df w) a = account_total_mv (dropna (df w)) a)
     ∧ ∀ rows r, (analyze_data w).2 = Ok rows → r ∈ rows →
         has_account (df w) (row_account r))
  ∧ (analyze_data nan_world).2 = Ok [a1_expected].
Proof.
  split; [|exact nan_world_result]. intros w. split; [|split].
  - destruct (decide (schema_ok w)) as [Hs|Hs].
    + assert (schema_ok (with_frame w (dropna (df w)))) as Hs' by exact Hs.
      rewrite (analyze_data_ok_result _ Hs), (analyze_data_ok_result _ Hs').
      change (df_rows (normalize_frame (df (with_frame w (dropna (df w))))))
        with (normalize_record
                <$> filter (λ r, is_Some (account_id r)) (df_rows (df w))).
      change (CONFIG (with_frame w (dropna (df w)))) with (CONFIG w).
      by rewrite normalize_dropna, groupby_dropna.
    + assert (¬ schema_ok (with_frame w (dropna (df w)))) as Hs' by exact Hs.
      by rewrite (analyze_data_schema_error _ Hs),
                 (analyze_data_schema_error _ Hs').
  - intros a. unfold account_total_mv, account_rows, dropna. cbn [df_rows].
    by rewrite filter_account_dropna.
  - intros rows r Hrun Hr.
    destruct (decide (schema_ok w)) as [Hs|Hs].
    + rewrite (analyze_data_ok_result w Hs) in Hrun.
      apply group_loop_accounts in Hrun.
      rewrite groupby_keys in Hrun. cbn [df_rows normalize_frame] in Hrun.
      rewrite group_keys_normalize in Hrun. simpl in Hrun.
      apply elem_of_group_keys. rewrite <- Hrun.
      by apply list_elem_of_fmap_2.
    + rewrite (analyze_data_schema_error w Hs) in Hrun.
      injection Hrun as <-. by apply elem_of_nil in Hr.
Qed.

Lemma missing_account_rows_dropped_witness :
  has_account (df nan_world) (row_account a1_expected).
Proof.
  apply (proj2 (proj2 (proj1 missing_account_rows_dropped nan_world))
           [a1_expected] a1_expected).
  - apply (bool_decide_unpack _). vm_compute. exact I.
  - apply (bool_decide_unpack _). vm_compute. exact I.
Defined.

(** ** The row of a group depends on the shares only *)








(** ** The order of the rows of the upload *)






(** ** The unit of the market values *)











(** ** One account at a time *)

Lemma account_row_local cfg d1 d2 a :
  account_rows d1 a = account_rows d2 a →
  account_row cfg d1 a = account_row cfg d2 a.
Proof.
  intros H.
  unfold account_row, account_deviation, group_mv, member_mv,
    account_ticker_mv, account_total_mv.
  by rewrite H.
Qed.

Lemma has_account_rows d a : has_account d a ↔ account_rows d a ≠ [].
Proof.
  unfold has_account, account_rows. split.
  - intros (rec & Hin & Ha) Hnil.
    assert (rec ∈ filter (λ r, account_id r = Some a) (df_rows d)) as H
      by by apply list_elem_of_filter.
    rewrite Hnil in H. by apply elem_of_nil in H.
  - intros Hne.
    destruct (filter (λ r, account_id r = Some a) (df_rows d))
      as [|rec l] eqn:Hf; [done|].
    assert (rec ∈ filter (λ r, account_id r = Some a) (df_rows d)) as H
      by (rewrite Hf; apply list_elem_of_here).
    apply list_elem_of_filter in H as [Ha Hin]. by exists rec.
Qed.

(** X3. The row of an account depends on the rows of that account only:
    two uploads that agree on the rows of account [a] give the same row for
    [a], whatever the other accounts hold. *)
Theorem row_depends_on_own_account (w1 w2 : World) (a : string) :
  CONFIG w1 = CONFIG w2 →
  schema_ok w1 → schema_ok w2 → divisor_of (CONFIG w1) ≠ 0 →
  account_rows (df w1) a = account_rows (df w2) a →
  ∃ rows1 rows2,
    (analyze_data w1).2 = Ok rows1
    ∧ (analyze_data w2).2 = Ok rows2
    ∧ ∀ r, row_account r = a → (r ∈ rows1 ↔ r ∈ rows2).
Proof.
  intros Hc Hs1 Hs2 Hdiv Hrows.
  assert (divisor_of (CONFIG w2) ≠ 0) as Hdiv2 by by rewrite <- Hc.
  exists (account_row (CONFIG w1) (df w1) <$> group_keys (df_rows (df w1))),
         (account_row (CONFIG w2) (df w2) <$> group_keys (df_rows (df w2))).
  split; [by apply analyze_data_run|]. split; [by apply analyze_data_run|].
  assert (has_account (df w1) a ↔ has_account (df w2) a) as Hhas
    by by rewrite !has_account_rows, Hrows.
  intros r Hr. rewrite !list_elem_of_fmap. split.
  - intros (k & -> & Hk). cbn [account_row row_account] in Hr. subst k.
    exists a. split.
    + rewrite <- Hc. by apply account_row_local.
    + apply elem_of_group_keys, Hhas. by apply elem_of_group_keys.
  - intros (k & -> & Hk). cbn [account_row row_account] in Hr. subst k.
    exists a. split.
    + rewrite <- Hc. symmetry. by apply account_row_local.
    + apply elem_of_group_keys, Hhas. by apply elem_of_group_keys.
Qed.

Lemma row_depends_on_own_account_witness :
  ∃ rows1 rows2,
    (analyze_data (sample_world (holding "B" "SPY" 70 :: a1_rows))).2
      = Ok rows1
    ∧ (analyze_data a1_world).2 = Ok rows2
    ∧ ∀ r, row_account r = "A1" → (r ∈ rows1 ↔ r ∈ rows2).
Proof.
  apply (row_depends_on_own_account
           (sample_world (holding "B" "SPY" 70 :: a1_rows)) a1_world "A1").
  - reflexivity.
  - unfold schema_ok. apply (bool_decide_unpack _). vm_compute. exact I.
  - unfold schema_ok. apply (bool_decide_unpack _). vm_compute. exact I.
  - intros H. apply (f_equal this) in H. vm_compute in H. discriminate H.
  - reflexivity.
Defined.

(** ** Sums of shares *)




Lemma sum_mv_cons r l : sum_mv (r :: l) = market_value r + sum_mv l.
Proof. unfold sum_mv. by rewrite fmap_cons, series_sum_cons. Qed.


Lemma Qcle_plus_nonneg (x y : Qc) : (0 ≤ y)%Qc → (x ≤ x + y)%Qc.
Proof.
  intros Hy. assert (x = x + 0) as Hx by ring. rewrite Hx at 1.
  apply Qcplus_le_compat; [apply Qcle_refl|done].
Qed.

Lemma sum_mv_nonneg (l : list HoldingRecord) :
  (∀ rec, rec ∈ l → (0 ≤ market_value rec)%Qc) → (0 ≤ sum_mv l)%Qc.
Proof.
  induction l as [|r l IH]; intros H.
  - unfold sum_mv. rewrite fmap_nil, series_sum_nil. apply Qcle_refl.
  - rewrite sum_mv_cons.
    apply (Qcle_trans _ (market_value r)).
    + apply H, list_elem_of_here.
    + apply Qcle_plus_nonneg, IH. intros rec Hrec.
      by apply H, list_elem_of_further.
Qed.






(** ** The size of the drift rate *)

Lemma series_sum_nonneg (l : list Qc) :
  (∀ x, x ∈ l → (0 ≤ x)%Qc) → (0 ≤ series_sum l)%Qc.
Proof.
  induction l as [|x l IH]; intros H.
  - rewrite series_sum_nil. apply Qcle_refl.
  - rewrite series_sum_cons. apply (Qcle_trans _ x).
    + apply H, list_elem_of_here.
    + apply Qcle_plus_nonneg, IH. intros y Hy.
      by apply H, list_elem_of_further.
Qed.

Lemma series_sum_zero_all (l : list Qc) :
  (∀ x, x ∈ l → (0 ≤ x)%Qc) → series_sum l = 0 → ∀ x, x ∈ l → x = 0.
Proof.
  induction l as [|y l IH]; intros Hpos Hsum x Hx.
  - by apply elem_of_nil in Hx.
  - rewrite series_sum_cons in Hsum.
    assert ((0 ≤ y)%Qc) as Hy by apply Hpos, list_elem_of_here.
    assert ((0 ≤ series_sum l)%Qc) as Hl.
    { apply series_sum_nonneg. intros z Hz.
      by apply Hpos, list_elem_of_further. }
    assert (y = 0) as Hy0.
    { apply Qcle_antisym; [|done]. rewrite <- Hsum.
      by apply Qcle_plus_nonneg. }
    apply elem_of_cons in Hx as [->|Hx]; [done|].
    apply IH; [|by rewrite Hy0, Qcplus_0_l in Hsum|done].
    intros z Hz. by apply Hpos, list_elem_of_further.
Qed.

Lemma series_sum_all_zero (l : list Qc) :
  (∀ x, x ∈ l → x = 0) → series_sum l = 0.
Proof.
  induction l as [|y l IH]; intros H; [done|].
  rewrite series_sum_cons, (H y) by apply list_elem_of_here.
  rewrite IH; [ring|]. intros z Hz. by apply H, list_elem_of_further.
Qed.

Lemma Qcdiv_mult_cancel (a d : Qc) : d ≠ 0 → a / d * d = a.
Proof. intros Hd. field. done. Qed.

Lemma Qcdiv_nonneg (a d : Qc) : 0 < d → (0 ≤ a)%Qc → (0 ≤ a / d)%Qc.
Proof.
  intros Hd Ha. apply (Qcmult_lt_0_le_reg_r _ _ d Hd).
  assert (d ≠ 0) as Hd0 by (intros ->; by apply (Qclt_not_eq 0 0)).
  by rewrite Qcmult_0_l, Qcdiv_mult_cancel.
Qed.

Lemma Qcdiv_zero_iff (a d : Qc) : d ≠ 0 → a / d = 0 ↔ a = 0.
Proof.
  intros Hd. split.
  - intros H. rewrite <- (Qcdiv_mult_cancel a d Hd), H. ring.
  - intros ->. unfold Qcdiv. ring.
Qed.

Lemma row_deviations cfg d a :
  (λ cell : string * (Qc * Qc), cell.2.2) <$> row_tickers (account_row cfg d a)
  = account_deviation d a <$> target_weights cfg.
Proof.
  unfold account_row. cbn [row_tickers].
  rewrite <- list_fmap_compose. by apply list_fmap_ext.
Qed.

Lemma row_drift cfg d a :
  row_total_drift (account_row cfg d a)
  = series_sum (Qcabs <$> ((λ cell : string * (Qc * Qc), cell.2.2)
                             <$> row_tickers (account_row cfg d a)))
    / divisor_of cfg.
Proof.
  rewrite row_deviations. unfold account_row. cbn [row_total_drift].
  by rewrite <- list_fmap_compose.
Qed.

(** X5. With a positive drift divisor the total drift rate of a row is
    never negative, and it is 0 exactly when every target ticker of the
    account is at its target weight. *)
Theorem drift_zero_iff_on_target (w : World) :
  schema_ok w → 0 < divisor_of (CONFIG w) →
  ∃ rows, (analyze_data w).2 = Ok rows ∧
    ∀ r, r ∈ rows →
      (0 ≤ row_total_drift r)%Qc
      ∧ (row_total_drift r = 0 ↔ ∀ cell, cell ∈ row_tickers r → cell.2.2 = 0).
Proof.
  intros Hs Hpos.
  assert (divisor_of (CONFIG w) ≠ 0) as Hdiv.
  { intros H. rewrite H in Hpos. by apply (Qclt_not_eq 0 0). }
  destruct (analyze_data_rows w Hs Hdiv) as (rows & Hrun & _ & Hrows).
  exists rows. split; [done|].
  intros r Hr. destruct (Hrows r Hr) as [Heq _].
  revert Heq. generalize (row_account r) as a. intros a ->.
  rewrite row_drift.
  set (devs := (λ cell : string * (Qc * Qc), cell.2.2)
                 <$> row_tickers (account_row (CONFIG w) (df w) a)).
  assert (∀ x, x ∈ Qcabs <$> devs → (0 ≤ x)%Qc) as Habs.
  { intros x (y & -> & _)%list_elem_of_fmap. apply Qcabs_nonneg. }
  split; [by apply Qcdiv_nonneg, series_sum_nonneg|].
  rewrite (Qcdiv_zero_iff _ _ Hdiv). split.
  - intros Hsum cell Hcell. apply Qcabs_null.
    apply (series_sum_zero_all _ Habs Hsum).
    apply list_elem_of_fmap. exists (cell.2.2). split; [done|].
    subst devs. apply list_elem_of_fmap. by exists cell.
  - intros Hall. apply series_sum_all_zero.
    intros x (y & -> & Hy)%list_elem_of_fmap.
    subst devs. apply list_elem_of_fmap in Hy as (cell & -> & Hcell).
    rewrite (Hall cell Hcell). apply Qcabs_pos, Qcle_refl.
Qed.

Lemma drift_zero_iff_on_target_witness :
  (0 ≤ row_total_drift a1_expected)%Qc
  ∧ (row_total_drift a1_expected = 0 ↔
     ∀ cell, cell ∈ row_tickers a1_expected → cell.2.2 = 0).
Proof.
  destruct (drift_zero_iff_on_target a1_world) as (rows & Hrun & Hrows).
  - unfold schema_ok. apply (bool_decide_unpack _). vm_compute. exact I.
  - apply (bool_decide_unpack _). vm_compute. exact I.
  - assert ((analyze_data a1_world).2 = Ok [a1_expected]) as Hres.
    { apply (bool_decide_unpack _). vm_compute. exact I. }
    rewrite Hres in Hrun. injection Hrun as <-.
    exact (Hrows a1_expected (list_elem_of_here _ _)).
Defined.







(** ** The composite groups and their members *)








(** ** An account on target and the reference row *)






(** ** A bound on the drift rate *)







(** ** The page: when a table is shown *)

Lemma group_keys_nil (d : DataFrame) :
  group_keys (df_rows d) = [] ↔ ∀ a, ¬ has_account d a.
Proof.
  split.
  - intros Hnil a Ha. apply (elem_of_group_keys (df_rows d) a) in Ha.
    rewrite Hnil in Ha. by apply elem_of_nil in Ha.
  - intros Hnone.
    destruct (group_keys (df_rows d)) as [|k keys] eqn:Hk; [done|].
    destruct (Hnone k). apply (elem_of_group_keys (df_rows d) k).
    rewrite Hk. apply list_elem_of_here.
Qed.

Lemma upload_page_not_empty w :
  frame_empty (df w) = false →
  upload_page w =
  (let '(w', res) := analyze_data w in
   match res with
   | Raise e => (w', ParseFailure e)
   | Ok [] => (w', NothingToShow)
   | Ok analysis_res =>
       (w', Table (target_row (CONFIG w') :: analysis_res)
              (style_dataframe (CONFIG w')
                 (target_row (CONFIG w') :: analysis_res)))
   end).
Proof. intros He. unfold upload_page. by rewrite He. Qed.

Lemma analyze_data_pair w : analyze_data w = ((analyze_data w).1, (analyze_data w).2).
Proof. by destruct (analyze_data w). Qed.

Lemma analyze_data_config w : CONFIG (analyze_data w).1 = CONFIG w.
Proof.
  unfold analyze_data.
  by destruct (decide (required_cols (COLS w)
                       ⊆ list_to_set (df_columns (df w)))).
Qed.

(** X10. With a drift divisor that is not zero, the page shows a table if
    and only if the upload has rows and columns, has the three configured
    columns and has at least one row with an account id; it never ends in
    the message of the exception handler. *)
Theorem page_shows_table_iff (w : World) :
  divisor_of (CONFIG w) ≠ 0 →
  ((∃ table styles, (upload_page w).2 = Table table styles)
   ↔ frame_empty (df w) = false ∧ schema_ok w ∧ ∃ a, has_account (df w) a)
  ∧ ∀ e, (upload_page w).2 ≠ ParseFailure e.
Proof.
  intros Hdiv.
  destruct (frame_empty (df w)) eqn:He.
  { unfold upload_page. rewrite He. cbn [snd]. split; [|done].
    split; [by intros (? & ? & ?)|by intros [? _]]. }
  rewrite (upload_page_not_empty w He), (analyze_data_pair w).
  destruct (decide (schema_ok w)) as [Hs|Hs].
  - rewrite (analyze_data_run w Hs Hdiv).
    destruct (group_keys (df_rows (df w))) as [|k keys] eqn:Hk.
    + cbn [fmap list_fmap snd]. split; [|done]. split.
      * by intros (? & ? & ?).
      * intros (_ & _ & a & Ha). by apply (group_keys_nil (df w)) in Ha.
    + rewrite fmap_cons. cbn [snd]. split; [|done]. split.
      * intros _. split; [done|]. split; [done|]. exists k.
        apply elem_of_group_keys. rewrite Hk. apply list_elem_of_here.
      * intros _. eauto.
  - rewrite (analyze_data_schema_error w Hs). cbn [fst snd]. split; [|done].
    split; [by intros (? & ? & ?)|by intros (_ & ? & _)].
Qed.

Lemma page_shows_table_iff_witness :
  ((∃ table styles, (upload_page two_account_world).2 = Table table styles)
   ↔ frame_empty (df two_account_world) = false
     ∧ schema_ok two_account_world
     ∧ ∃ a, has_account (df two_account_world) a)
  ∧ ∀ e, (upload_page two_account_world).2 ≠ ParseFailure e.
Proof.
  apply (page_shows_table_iff two_account_world).
  intros H. apply (f_equal this) in H. vm_compute in H. discriminate H.
Defined.

(** X11. An upload with the three configured columns in which no row has an
    account id shows nothing and reports nothing: the page stops without a
    table, a warning or an error, whatever the drift divisor, and the
    tickers of the frame have been overwritten all the same. *)
Theorem page_silent_without_accounts (w : World) :
  frame_empty (df w) = false → schema_ok w →
  (∀ rec, rec ∈ df_rows (df w) → account_id rec = None) →
  upload_page w =
  ({| CONFIG := CONFIG w; df := normalize_frame (df w);
      st_errors := st_errors w |}, NothingToShow).
Proof.
  intros He Hs Hnone.
  rewrite (upload_page_not_empty w He), (analyze_data_pair w).
  rewrite (analyze_data_ok_world w Hs), (analyze_data_ok_result w Hs).
  unfold groupby. cbn [df_rows normalize_frame].
  rewrite group_keys_normalize.
  assert (group_keys (df_rows (df w)) = []) as ->; [|done].
  apply group_keys_nil. intros a (rec & Hin & Ha).
  by rewrite (Hnone rec Hin) in Ha.
Qed.

Lemma page_silent_without_accounts_witness :
  upload_page no_account_world =
  ({| CONFIG := sample_config; df := normalize_frame (df no_account_world);
      st_errors := [] |}, NothingToShow).
Proof.
  apply (page_silent_without_accounts no_account_world).
  - reflexivity.
  - unfold schema_ok. apply (bool_decide_unpack _). vm_compute. exact I.
  - apply (proj1 (list.Forall_forall
                    (λ rec : HoldingRecord, account_id rec = None) _)).
    apply (bool_decide_unpack _). vm_compute. exact I.
Defined.

(** X12. With a configured column missing, the page shows no table.  An
    upload without rows gets the warning for an empty file and no schema
    error, and nothing is changed; any other upload gets exactly one schema
    error, which names the missing columns, and the page stops with the
    frame as it was. *)
Theorem page_with_missing_column (w : World) (c : string) :
  c ∈ [col_account_id (COLS w); col_ticker (COLS w);
       col_market_value (COLS w)] →
  c ∉ df_columns (df w) →
  upload_page w =
  if frame_empty (df w) then (w, EmptyUpload)
  else
    ({| CONFIG := CONFIG w; df := df w;
        st_errors := st_errors w
          ++ [{| missing_fields :=
                   required_cols (COLS w) ∖ list_to_set (df_columns (df w));
                 required_fields := required_cols (COLS w) |}] |},
     NothingToShow).
Proof.
  intros Hc Hnot.
  assert (¬ schema_ok w) as Hs.
  { intros Hs. apply Hnot. apply elem_of_required_cols in Hc.
    specialize (Hs c Hc). by apply elem_of_list_to_set in Hs. }
  destruct (frame_empty (df w)) eqn:He.
  - unfold upload_page. by rewrite He.
  - rewrite (upload_page_not_empty w He).
    by rewrite (analyze_data_schema_error w Hs).
Qed.

Lemma page_with_missing_column_witness :
  upload_page header_only_world = (header_only_world, EmptyUpload)
  ∧ ∃ e, upload_page no_value_world
         = ({| CONFIG := sample_config; df := df no_value_world;
               st_errors := [e] |}, NothingToShow)
         ∧ missing_fields e = {[ "market_value" ]}.
Proof.
  split.
  - apply (page_with_missing_column header_only_world "market_value").
    + apply (bool_decide_unpack _). vm_compute. exact I.
    + apply (bool_decide_unpack _). vm_compute. exact I.
  - eexists. split.
    + apply (page_with_missing_column no_value_world "market_value").
      * apply (bool_decide_unpack _). vm_compute. exact I.
      * apply (bool_decide_unpack _). vm_compute. exact I.
    + apply (bool_decide_unpack _). vm_compute. exact I.
Defined.

(** ** The page: the table and its styles *)

Lemma prefix_refl (s : string) : String.prefix s s = true.
Proof.
  induction s as [|c s IH]; [done|]. simpl.
  by destruct (ascii_dec c c).
Qed.

Lemma str_contains_refl (s : string) : str_contains s s = true.
Proof.
  destruct s as [|c s]; [done|].
  change (str_contains (String c s) (String c s))
    with (String.prefix (String c s) (String c s)
          || str_contains (String c s) s).
  by rewrite prefix_refl.
Qed.

Lemma warning_label_in_warning cfg :
  str_contains (warning_label cfg) (warning (labels_of cfg)) = true.
Proof.
  unfold warning_label, labels_of.
  destruct (status_labels cfg) as [labels|]; simpl.
  - apply str_contains_refl.
  - vm_compute. reflexivity.
Qed.

Lemma style_dataframe_cons cfg r0 (rows : list Row) :
  style_dataframe cfg (r0 :: rows) =
  style_reference
  :: ((λ r, if str_contains (warning_label cfg) (row_status r)
            then style_warning else "") <$> rows).
Proof.
  unfold style_dataframe. rewrite imap_cons. f_equal.
  rewrite <- (imap_const (λ r, if str_contains (warning_label cfg) (row_status r)
            then style_warning else "") rows).
  apply imap_ext. intros i r _. simpl. done.
Qed.

(** X13. The table of the page is the reference row followed by the rows of
    the analysis, one per account in the order of the analysis.  The
    reference row is styled as the reference; every row whose status is the
    warning label is styled red, and a row whose status is the normal label
    is styled red only when the warning label occurs inside the normal
    label. *)
Theorem page_table_and_styles (w : World) :
  frame_empty (df w) = false → schema_ok w → divisor_of (CONFIG w) ≠ 0 →
  (∃ a, has_account (df w) a) →
  ∃ rows styles,
    (analyze_data w).2 = Ok rows
    ∧ (upload_page w).2 = Table (target_row (CONFIG w) :: rows) styles
    ∧ (row_account <$> rows) = group_keys (df_rows (df w))
    ∧ styles !! 0%nat = Some style_reference
    ∧ ∀ i r, rows !! i = Some r →
        (row_status r = warning (labels_of (CONFIG w)) →
         styles !! S i = Some style_warning)
        ∧ (row_status r = normal (labels_of (CONFIG w)) →
           styles !! S i =
             Some (if str_contains (warning_label (CONFIG w))
                        (normal (labels_of (CONFIG w)))
                   then style_warning else "")).
Proof.
  intros He Hs Hdiv [a Ha].
  destruct (analyze_data_rows w Hs Hdiv) as (rows & Hrun & Hkeys & _).
  exists rows,
    (style_dataframe (CONFIG w) (target_row (CONFIG w) :: rows)).
  split; [done|].
  assert (rows ≠ []) as Hne.
  { intros ->. apply elem_of_group_keys in Ha.
    rewrite <- Hkeys in Ha. by apply elem_of_nil in Ha. }
  split.
  { rewrite (upload_page_not_empty w He), (analyze_data_pair w).
    rewrite Hrun, (analyze_data_config w).
    destruct rows as [|r rows]; [done|]. done. }
  split; [done|].
  rewrite style_dataframe_cons. split; [done|].
  intros i r Hr.
  assert (∀ l : list string, (style_reference :: l) !! S i = l !! i) as ->
    by done.
  rewrite list_lookup_fmap, Hr. cbn [fmap option_fmap option_map].
  split; intros ->; [|done].
  by rewrite warning_label_in_warning.
Qed.

Lemma page_table_and_styles_witness :
  ∃ rows styles,
    (analyze_data two_account_world).2 = Ok rows
    ∧ (upload_page two_account_world).2
      = Table (target_row sample_config :: rows) styles
    ∧ (row_account <$> rows) = ["A"; "B"]
    ∧ styles = [style_reference; ""; style_warning].
Proof.
  destruct (page_table_and_styles two_account_world)
    as (rows & styles & Hrun & Hpage & Hkeys & Hstyles).
  - reflexivity.
  - unfold schema_ok. apply (bool_decide_unpack _). vm_compute. exact I.
  - intros H. apply (f_equal this) in H. vm_compute in H. discriminate H.
  - exists "A", (holding "A" "VTI" 500). split; [|reflexivity].
    apply (bool_decide_unpack _). vm_compute. exact I.
  - exists rows, styles. split; [exact Hrun|]. split; [exact Hpage|].
    split; [rewrite Hkeys; vm_compute; reflexivity|].
    assert ((upload_page two_account_world).2
            = Table (target_row sample_config
                     :: [account_row sample_config (df two_account_world) "A";
                         account_row sample_config (df two_account_world) "B"])
                [style_reference; ""; style_warning]) as Heval.
    { apply (bool_decide_unpack _). vm_compute. exact I. }
    rewrite Hpage in Heval. by injection Heval as _ ->.
Defined.

(** ** Several rows for one holding *)






(** ** Holdings that are no target *)

Lemma Qcmult_nonneg (a c : Qc) : (0 ≤ a)%Qc → (0 ≤ c)%Qc → (0 ≤ a * c)%Qc.
Proof.
  intros Ha Hc. assert (0 = 0 * c) as -> by ring.
  by apply Qcmult_le_compat_r.
Qed.

Lemma Qcplus_pos_nonneg (t c : Qc) : 0 < t → (0 ≤ c)%Qc → 0 < t + c.
Proof.
  intros Ht Hc. apply (Qclt_le_trans _ t); [done|].
  by apply Qcle_plus_nonneg.
Qed.

Lemma ratio_antitone (a t c : Qc) :
  (0 ≤ a)%Qc → (a ≤ t)%Qc → (0 ≤ c)%Qc → (ratio a (t + c) ≤ ratio a t)%Qc.
Proof.
  intros Ha Hat Hc. destruct (Qclt_le_dec 0 t) as [Ht|Ht].
  - assert (0 < t + c) as Htc by by apply Qcplus_pos_nonneg.
    assert (t ≠ 0) as Ht0 by (intros ->; by apply (Qclt_not_eq 0 0)).
    assert (t + c ≠ 0) as Htc0.
    { intros H0. rewrite H0 in Htc. by apply (Qclt_not_eq 0 0). }
    rewrite !ratio_pos by done.
    apply (Qcmult_lt_0_le_reg_r _ _ t Ht).
    rewrite (Qcdiv_mult_cancel a t Ht0).
    apply (Qcmult_lt_0_le_reg_r _ _ (t + c) Htc).
    assert (a / (t + c) * t * (t + c) = a * t) as -> by (field; done).
    assert (a * (t + c) = a * t + a * c) as -> by ring.
    by apply Qcle_plus_nonneg, Qcmult_nonneg.
  - assert (a = 0) as ->.
    { apply Qcle_antisym; [|done]. by apply (Qcle_trans _ t). }
    rewrite !ratio_zero_actual. apply Qcle_refl.
Qed.

Lemma account_rows_cons d rec a :
  account_rows {| df_columns := df_columns d; df_rows := rec :: df_rows d |} a
  = if decide (account_id rec = Some a) then rec :: account_rows d a
    else account_rows d a.
Proof. unfold account_rows. cbn [df_rows]. by rewrite filter_cons. Qed.

Lemma holding_rows_untracked (keys : list string) rec l tk :
  normalize_ticker (ticker rec) ∉ keys → tk ∈ keys →
  holding_rows tk (rec :: l) = holding_rows tk l.
Proof.
  intros Hnot Hin. unfold holding_rows. rewrite filter_cons.
  rewrite decide_False; [done|]. intros Heq. apply Hnot. by rewrite Heq.
Qed.

Lemma ticker_mv_le_total (l : list HoldingRecord) tk :
  (∀ rec, rec ∈ l → (0 ≤ market_value rec)%Qc) →
  (0 ≤ sum_mv (holding_rows tk l))%Qc
  ∧ (sum_mv (holding_rows tk l) ≤ sum_mv l)%Qc.
Proof.
  intros Hpos. split.
  - apply sum_mv_nonneg. intros rec [_ Hrec]%list_elem_of_filter.
    by apply Hpos.
  - rewrite (sum_mv_split (λ r, normalize_ticker (ticker r) = tk) l).
    apply Qcle_plus_nonneg, sum_mv_nonneg.
    intros rec [_ Hrec]%list_elem_of_filter. by apply Hpos.
Qed.

(** X15. Holdings outside the target weights lower the ratios: adding to
    an upload a row whose ticker is no target ticker and whose market value
    is not negative leaves every account its row, with the same ticker
    columns, and no ratio of an account without negative market values is
    higher than before. *)
Theorem untracked_row_lowers_ratios (w : World) (extra : HoldingRecord) :
  schema_ok w → divisor_of (CONFIG w) ≠ 0 →
  normalize_ticker (ticker extra) ∉ (TARGET_WEIGHTS w).*1 →
  (0 ≤ market_value extra)%Qc →
  ∃ rows rows',
    (analyze_data w).2 = Ok rows
    ∧ (analyze_data
         (with_frame w {| df_columns := df_columns (df w);
                          df_rows := extra :: df_rows (df w) |})).2 = Ok rows'
    ∧ ∀ r, r ∈ rows →
        (∀ rec, rec ∈ account_rows (df w) (row_account r) →
           (0 ≤ market_value rec)%Qc) →
        ∃ r', r' ∈ rows' ∧ row_account r' = row_account r
          ∧ Forall2 (λ c c', c'.1 = c.1 ∧ (c'.2.1 ≤ c.2.1)%Qc)
              (row_tickers r) (row_tickers r').
Proof.
  intros Hs Hdiv Hnot Hextra.
  set (d' := {| df_columns := df_columns (df w);
                df_rows := extra :: df_rows (df w) |}).
  assert (schema_ok (with_frame w d')) as Hs' by exact Hs.
  destruct (analyze_data_rows w Hs Hdiv) as (rows & Hrun & _ & Hrows).
  exists rows, (account_row (CONFIG w) d' <$> group_keys (df_rows d')).
  split; [done|]. split; [by apply analyze_data_run|].
  intros r Hr Hpos. destruct (Hrows r Hr) as [Heq (rec & Hrec & Ha)].
  revert Heq Hpos Ha. generalize (row_account r) as a. intros a -> Hpos Ha.
  exists (account_row (CONFIG w) d' a). split; [|split; [done|]].
  - apply list_elem_of_fmap. exists a. split; [done|].
    apply elem_of_group_keys. exists rec. split; [|done].
    by apply list_elem_of_further.
  - unfold account_row. cbn [row_tickers]. unfold TARGET_WEIGHTS in Hnot.
    apply Forall2_fmap, Forall_Forall2_diag, list.Forall_forall.
    intros it Hit. cbn [fst snd]. split; [done|].
    assert (it.1 ∈ (target_weights (CONFIG w)).*1) as Hkey
      by (apply list_elem_of_fmap; by exists it).
    unfold account_ticker_mv, account_total_mv.
    change (account_rows d' a)
      with (account_rows {| df_columns := df_columns (df w);
                            df_rows := extra :: df_rows (df w) |} a).
    rewrite account_rows_cons.
    destruct (decide (account_id extra = Some a)); [|apply Qcle_refl].
    rewrite (holding_rows_untracked _ _ _ _ Hnot Hkey), sum_mv_cons.
    rewrite (Qcplus_comm (market_value extra)).
    destruct (ticker_mv_le_total (account_rows (df w) a) it.1 Hpos).
    by apply ratio_antitone.
Qed.

Lemma untracked_row_lowers_ratios_witness :
  ∃ rows rows',
    (analyze_data a1_world).2 = Ok rows
    ∧ (analyze_data
         (with_frame a1_world
            {| df_columns := df_columns (df a1_world);
               df_rows := holding "A1" "GLD" 1000 :: df_rows (df a1_world) |})).2
      = Ok rows'
    ∧ ∀ r, r ∈ rows →
        (∀ rec, rec ∈ account_rows (df a1_world) (row_account r) →
           (0 ≤ market_value rec)%Qc) →
        ∃ r', r' ∈ rows' ∧ row_account r' = row_account r
          ∧ Forall2 (λ c c', c'.1 = c.1 ∧ (c'.2.1 ≤ c.2.1)%Qc)
              (row_tickers r) (row_tickers r').
Proof.
  apply (untracked_row_lowers_ratios a1_world (holding "A1" "GLD" 1000)).
  - unfold schema_ok. apply (bool_decide_unpack _). vm_compute. exact I.
  - intros H. apply (f_equal this) in H. vm_compute in H. discriminate H.
  - apply (bool_decide_unpack _). vm_compute. exact I.
  - apply (bool_decide_unpack _). vm_compute. exact I.
Defined.
